(** * Comparison predicates over OSM objects

    A shallow embedding of [osmium/osm/object_comparisons.hpp]: the two
    equality predicates, [id_order], and the three ordering predicates over
    [osmium::OSMObject], each with its by-pointer overload, followed by the
    properties of these functions. *)

From Stdlib Require Import ZArith NArith Bool List Lia.
From Stdlib Require Import Permutation Sorted RelationClasses.
Import ListNotations.

Local Open Scope Z_scope.

(** ** Machine integers *)

Definition INT64_MIN : Z := - 2 ^ 63.
Definition INT64_MAX : Z := 2 ^ 63 - 1.

(** The values of [int64_t]. *)
Definition int64 (x : Z) : Prop := INT64_MIN <= x <= INT64_MAX.

(** Two's-complement wrap-around of a mathematical integer into [int64_t]. *)
Definition wrap_int64 (x : Z) : Z := (x + 2 ^ 63) mod 2 ^ 64 - 2 ^ 63.

(** Modelled from the spec: the typedefs of [osmium/osm/types.hpp] are not
    part of the sources; the spec gives [id] as a signed 64-bit integer and
    [version] as an unsigned integer. *)
Definition object_id_type : Type := Z.
Definition object_version_type : Type := N.

(** [std::abs] at [int64_t]: the argument is negated when it is negative,
    and the negation wraps around ([-INT64_MIN] is not an [int64_t]). *)
Definition std_abs (x : Z) : Z := if x <? 0 then wrap_int64 (- x) else x.

(** ** [operator<] and tuples *)

(** The [operator<] overloads the comparators rely on, one per type. *)
Class Less (A : Type) : Type := less : A -> A -> bool.

(** [bool]: [false < true]. *)
#[global] Instance bool_less : Less bool := fun a b => negb a && b.
#[global] Instance Z_less : Less Z := Z.ltb.
#[global] Instance N_less : Less N := N.ltb.

(** [std::tuple]'s [operator<], with a tuple as a right-nested pair: the
    heads decide when one is less than the other, else the tails do. *)
#[global] Instance tuple_less {A B : Type} `{Less A} `{Less B} : Less (A * B) :=
  fun x y =>
    less (fst x) (fst y) || (negb (less (fst y) (fst x)) && less (snd x) (snd y)).

(** [osmium::const_tie] at the arities the comparators use. *)
Definition const_tie2 {A B : Type} (a : A) (b : B) : A * B := (a, b).
Definition const_tie4 {A B C D : Type} (a : A) (b : B) (c : C) (d : D)
  : A * (B * (C * D)) := (a, (b, (c, d))).
Definition const_tie5 {A B C D E : Type} (a : A) (b : B) (c : C) (d : D) (e : E)
  : A * (B * (C * (D * E))) := (a, (b, (c, (d, e)))).

(** ** The object type *)

(** Modelled from the spec: [osmium::item_type] ([osmium/osm/item_type.hpp])
    is not part of the sources; the spec gives [kind] as an enumerated
    category with a fixed enumeration ordering.  An enumerator is
    represented by its position in the enumeration. *)
Definition item_type : Type := N.

(** Modelled from the spec: [osmium::Timestamp] ([osmium/osm/timestamp.hpp])
    is not part of the sources; the spec gives it as an optional
    point-in-time value that may be invalid (absent, unset), with a
    validity check.  [Timestamp_default] stands for the default-constructed
    [osmium::Timestamp()], the invalid sentinel. *)
Inductive Timestamp : Type :=
| Timestamp_default
| Timestamp_at (seconds : N).

Definition valid (t : Timestamp) : bool :=
  match t with
  | Timestamp_default => false
  | Timestamp_at _ => true
  end.

(** Modelled from the spec: [operator<] on timestamps orders points in time
    chronologically.  The spec does not say where the unset value sorts; it
    is placed before every point in time here.  The properties below use
    only that this [operator<] is a strict total order. *)
#[global] Instance Timestamp_less : Less Timestamp :=
  fun a b =>
    match a, b with
    | Timestamp_default, Timestamp_default => false
    | Timestamp_default, Timestamp_at _ => true
    | Timestamp_at _, Timestamp_default => false
    | Timestamp_at s, Timestamp_at t => (s <? t)%N
    end.

(** Modelled from the spec: [osmium::OSMObject] ([osmium/osm/object.hpp]) is
    not part of the sources; the comparators read it through the four
    accessors [type()], [id()], [version()] and [timestamp()]. *)
Record OSMObject : Type := mkOSMObject {
  type : item_type;
  id : object_id_type;
  version : object_version_type;
  timestamp : Timestamp
}.

(** Modelled from the spec: [OSMObject::positive_id()] is the absolute value
    of [id] as an unsigned quantity. *)
Definition positive_id (o : OSMObject) : Z := Z.abs (id o).

(** Modelled from the spec: [operator==] on [OSMObject] holds iff [kind],
    [id] and [version] all match exactly. *)
Definition OSMObject_eq (lhs rhs : OSMObject) : bool :=
  (type lhs =? type rhs)%N && (id lhs =? id rhs) && (version lhs =? version rhs)%N.

(** Modelled from the spec: [operator<] on [OSMObject] has primary key
    [kind], then the magnitude-signed [id] ordering, then [version], then
    [timestamp], compared as a lexicographic tuple in that priority order. *)
Definition OSMObject_lt (lhs rhs : OSMObject) : bool :=
  less (const_tie5 (type lhs) (id lhs >? 0) (positive_id lhs) (version lhs) (timestamp lhs))
       (const_tie5 (type rhs) (id rhs >? 0) (positive_id rhs) (version rhs) (timestamp rhs)).

(** ** The comparators, by reference *)

Definition object_equal_type_id_version (lhs rhs : OSMObject) : bool :=
  OSMObject_eq lhs rhs.

Definition object_equal_type_id (lhs rhs : OSMObject) : bool :=
  (type lhs =? type rhs)%N && (id lhs =? id rhs).

Definition id_order (lhs rhs : object_id_type) : bool :=
  less (const_tie2 (lhs >? 0) (std_abs lhs))
       (const_tie2 (rhs >? 0) (std_abs rhs)).

Definition object_order_type_id_version (lhs rhs : OSMObject) : bool :=
  OSMObject_lt lhs rhs.

Definition object_order_type_id_version_without_timestamp (lhs rhs : OSMObject) : bool :=
  less (const_tie4 (type lhs) (id lhs >? 0) (positive_id lhs) (version lhs))
       (const_tie4 (type rhs) (id rhs >? 0) (positive_id rhs) (version rhs)).

Definition object_order_type_id_reverse_version (lhs rhs : OSMObject) : bool :=
  less (const_tie5 (type lhs) (id lhs >? 0) (positive_id lhs) (version rhs)
          (if valid (timestamp lhs) && valid (timestamp rhs)
           then timestamp rhs else Timestamp_default))
       (const_tie5 (type rhs) (id rhs >? 0) (positive_id rhs) (version lhs)
          (if valid (timestamp lhs) && valid (timestamp rhs)
           then timestamp lhs else Timestamp_default)).

(** ** The comparators, by pointer *)

(** A [const osmium::OSMObject*]: null, or the address of an object. *)
Inductive pointer : Type :=
| nullptr
| address_of (o : OSMObject).

(** The conversion of a pointer to [bool] in [assert(lhs && rhs)]. *)
Definition to_bool (p : pointer) : bool :=
  match p with
  | nullptr => false
  | address_of _ => true
  end.

(** A by-pointer call either returns a [bool] or stops at its assertion
    ([None]).  Where assertions are compiled out, a null argument is
    dereferenced instead, which is undefined; [None] stands for that
    outcome too. *)
Definition assert (c : bool) : option unit := if c then Some tt else None.

Definition deref (p : pointer) : option OSMObject :=
  match p with
  | nullptr => None
  | address_of o => Some o
  end.

Notation "x <- m ;; k" := (match m with Some x => k | None => None end)
  (at level 61, m at next level, right associativity).

Definition object_equal_type_id_version_ptr (lhs rhs : pointer) : option bool :=
  _ <- assert (to_bool lhs && to_bool rhs) ;;
  l <- deref lhs ;;
  r <- deref rhs ;;
  Some (OSMObject_eq l r).

Definition object_equal_type_id_ptr (lhs rhs : pointer) : option bool :=
  _ <- assert (to_bool lhs && to_bool rhs) ;;
  l <- deref lhs ;;
  r <- deref rhs ;;
  Some (object_equal_type_id l r).

Definition object_order_type_id_version_ptr (lhs rhs : pointer) : option bool :=
  _ <- assert (to_bool lhs && to_bool rhs) ;;
  l <- deref lhs ;;
  r <- deref rhs ;;
  Some (OSMObject_lt l r).

Definition object_order_type_id_version_without_timestamp_ptr (lhs rhs : pointer)
  : option bool :=
  _ <- assert (to_bool lhs && to_bool rhs) ;;
  l <- deref lhs ;;
  r <- deref rhs ;;
  Some (object_order_type_id_version_without_timestamp l r).

Definition object_order_type_id_reverse_version_ptr (lhs rhs : pointer) : option bool :=
  _ <- assert (to_bool lhs && to_bool rhs) ;;
  l <- deref lhs ;;
  r <- deref rhs ;;
  Some (object_order_type_id_reverse_version l r).

(** ** The overload sets *)

(** The six function object classes of the header. *)
Inductive comparator : Type :=
| c_object_equal_type_id_version
| c_object_equal_type_id
| c_id_order
| c_object_order_type_id_version
| c_object_order_type_id_version_without_timestamp
| c_object_order_type_id_reverse_version.

(** The argument lists a call site can pass to [operator()]. *)
Inductive arguments : Type :=
| by_reference (lhs rhs : OSMObject)
| by_pointer (lhs rhs : pointer)
| by_value (lhs rhs : object_id_type).

Inductive call_result : Type :=
| no_matching_overload
| assertion_failure
| returns (b : bool).

Definition of_assertion (r : option bool) : call_result :=
  match r with
  | Some b => returns b
  | None => assertion_failure
  end.

(** Overload resolution of [c(args)] followed by the call: each class has
    exactly the [operator()] overloads the header declares. *)
Definition call (c : comparator) (args : arguments) : call_result :=
  match c, args with
  | c_object_equal_type_id_version, by_reference l r =>
      returns (object_equal_type_id_version l r)
  | c_object_equal_type_id_version, by_pointer l r =>
      of_assertion (object_equal_type_id_version_ptr l r)
  | c_object_equal_type_id, by_reference l r =>
      returns (object_equal_type_id l r)
  | c_object_equal_type_id, by_pointer l r =>
      of_assertion (object_equal_type_id_ptr l r)
  | c_id_order, by_value l r =>
      returns (id_order l r)
  | c_object_order_type_id_version, by_reference l r =>
      returns (object_order_type_id_version l r)
  | c_object_order_type_id_version, by_pointer l r =>
      of_assertion (object_order_type_id_version_ptr l r)
  | c_object_order_type_id_version_without_timestamp, by_reference l r =>
      returns (object_order_type_id_version_without_timestamp l r)
  | c_object_order_type_id_version_without_timestamp, by_pointer l r =>
      of_assertion (object_order_type_id_version_without_timestamp_ptr l r)
  | c_object_order_type_id_reverse_version, by_reference l r =>
      returns (object_order_type_id_reverse_version l r)
  | c_object_order_type_id_reverse_version, by_pointer l r =>
      of_assertion (object_order_type_id_reverse_version_ptr l r)
  | _, _ => no_matching_overload
  end.

(** The comparators whose [operator()] takes objects. *)
Definition compares_objects (c : comparator) : bool :=
  match c with
  | c_id_order => false
  | _ => true
  end.

(** ** Functional updates of an object *)

Definition set_version (o : OSMObject) (v : object_version_type) : OSMObject :=
  mkOSMObject (type o) (id o) v (timestamp o).

Definition set_timestamp (o : OSMObject) (t : Timestamp) : OSMObject :=
  mkOSMObject (type o) (id o) (version o) t.

(** ** The ordering rule in the words of the specification *)

(** The sort key of an identifier: the pair [(is_positive, |id|)]. *)
Definition magnitude_signed_key (x : Z) : bool * Z := (0 <? x, Z.abs x).

(** Lexicographic comparison of two such keys, [false] before [true]. *)
Definition key_lex_lt (k1 k2 : bool * Z) : Prop :=
  (fst k1 = false /\ fst k2 = true) \/ (fst k1 = fst k2 /\ snd k1 < snd k2).

(** The key [id_order] computes for an identifier. *)
Definition id_sort_key (x : object_id_type) : bool * Z :=
  const_tie2 (x >? 0) (std_abs x).

(** ** Order vocabulary *)

Definition precedes {A : Type} (lt : A -> A -> bool) (a b : A) : Prop := lt a b = true.


Definition irreflexive {A : Type} (lt : A -> A -> bool) : Prop :=
  forall a, lt a a = false.

Definition transitive {A : Type} (lt : A -> A -> bool) : Prop :=
  forall a b c, lt a b = true -> lt b c = true -> lt a c = true.

(** [lt] is a strict total order once elements related by the equivalence
    [equiv] are identified: it is irreflexive and transitive, equivalent
    elements are never ordered, and inequivalent ones always are. *)
Record strict_total_order {A : Type} (lt : A -> A -> bool) (equiv : A -> A -> Prop)
  : Prop := {
  sto_equivalence : Equivalence equiv;
  sto_irreflexive : irreflexive lt;
  sto_transitive : transitive lt;
  sto_equiv_unordered : forall a b, equiv a b -> lt a b = false;
  sto_comparable : forall a b, ~ equiv a b -> lt a b = true \/ lt b a = true
}.

(** The laws of an [operator<] that is a strict total order on its type. *)
Class LessLaws (A : Type) `{Less A} : Prop := {
  less_irrefl : forall a : A, less a a = false;
  less_trans : forall a b c : A, less a b = true -> less b c = true -> less a c = true;
  less_total : forall a b : A, less a b = false -> less b a = false -> a = b
}.

(** The order a sort key induces through its [operator<], and the
    equivalence of having the same key. *)
Definition key_order {A K : Type} `{Less K} (key : A -> K) (a b : A) : bool :=
  less (key a) (key b).

Definition same_key {A K : Type} (key : A -> K) (a b : A) : Prop := key a = key b.

(** The keys of the two comparators that compare one tuple per object. *)
Definition type_id_version_key (o : OSMObject) : item_type * (bool * (Z * object_version_type)) :=
  const_tie4 (type o) (id o >? 0) (positive_id o) (version o).

Definition type_id_version_timestamp_key (o : OSMObject)
  : item_type * (bool * (Z * (object_version_type * Timestamp))) :=
  const_tie5 (type o) (id o >? 0) (positive_id o) (version o) (timestamp o).

(** The leading part of every object key: type, sign class, magnitude. *)
Definition type_id_key (o : OSMObject) : item_type * (bool * Z) :=
  (type o, (id o >? 0, positive_id o)).

(** The fields the three-field comparators read. *)
Definition same_type_id_version (a b : OSMObject) : Prop :=
  type a = type b /\ id a = id b /\ version a = version b.

(** ** Statements and inputs used below *)


(** The claim as the specification words it: every one of the six
    comparators can be called by reference and by pointer, with the same
    result. *)
Definition every_comparator_has_both_forms : Prop :=
  forall (c : comparator) (a b : OSMObject),
    exists r : bool,
      call c (by_reference a b) = returns r /\
      call c (by_pointer (address_of a) (address_of b)) = returns r.

(** Concrete objects: versions of one node, with several timestamps. *)
Definition node_1_v1 : OSMObject := mkOSMObject 1%N 1 1%N (Timestamp_at 100).
Definition node_1_v2 : OSMObject := mkOSMObject 1%N 1 2%N (Timestamp_at 50).
Definition node_1_v1_later : OSMObject := mkOSMObject 1%N 1 1%N (Timestamp_at 200).
Definition node_1_v1_unset : OSMObject := mkOSMObject 1%N 1 1%N Timestamp_default.
Definition node_1_v1_earlier : OSMObject := mkOSMObject 1%N 1 1%N (Timestamp_at 30).

(** Further objects: another node and a node with a negative id. *)
Definition node_2_v1 : OSMObject := mkOSMObject 1%N 2 1%N (Timestamp_at 10).
Definition node_m3_v1 : OSMObject := mkOSMObject 1%N (-3) 1%N Timestamp_default.

(** What [std::sort] with the comparator [lt] establishes: no element
    precedes an element that stands before it in the list. *)
Definition sorted_by {A : Type} (lt : A -> A -> bool) (l : list A) : Prop :=
  StronglySorted (fun a b => lt b a = false) l.

(** ** Tactics *)

Ltac int64_consts :=
  unfold int64, INT64_MIN, INT64_MAX, wrap_int64 in *;
  change (2 ^ 63) with 9223372036854775808 in *;
  change (2 ^ 64) with 18446744073709551616 in *.

(** * Properties *)

(** ** Laws of the component orders *)

Lemma less_asym {A : Type} `{LessLaws A} (a b : A) :
  less a b = true -> less b a = false.
Proof.
  intros Hab. destruct (less b a) eqn:Hba; [|reflexivity].
  pose proof (less_trans a b a Hab Hba) as Haa.
  rewrite less_irrefl in Haa. discriminate.
Qed.

#[global] Instance bool_less_laws : LessLaws bool.
Proof.
  split.
  - intros []; reflexivity.
  - intros [] [] []; cbn; congruence.
  - intros [] []; cbn; congruence.
Qed.

#[global] Instance Z_less_laws : LessLaws Z.
Proof.
  split; unfold less, Z_less.
  - apply Z.ltb_irrefl.
  - intros a b c. rewrite !Z.ltb_lt. lia.
  - intros a b. rewrite !Z.ltb_ge. lia.
Qed.

#[global] Instance N_less_laws : LessLaws N.
Proof.
  split; unfold less, N_less.
  - apply N.ltb_irrefl.
  - intros a b c. rewrite !N.ltb_lt. lia.
  - intros a b. rewrite !N.ltb_ge. lia.
Qed.

#[global] Instance Timestamp_less_laws : LessLaws Timestamp.
Proof.
  split; unfold less, Timestamp_less.
  - intros [|s]; [reflexivity | apply N.ltb_irrefl].
  - intros [|s] [|t] [|u]; try congruence. rewrite !N.ltb_lt. lia.
  - intros [|s] [|t]; try congruence. rewrite !N.ltb_ge. intros. f_equal. lia.
Qed.

Lemma tuple_less_unfold {A B : Type} `{Less A} `{Less B} (a1 a2 : A) (b1 b2 : B) :
  less (a1, b1) (a2, b2) = less a1 a2 || (negb (less a2 a1) && less b1 b2).
Proof. reflexivity. Qed.

(** On strict total orders the tuple comparison is the lexicographic one. *)
Lemma tuple_less_true {A B : Type} `{LessLaws A} `{Less B} (a1 a2 : A) (b1 b2 : B) :
  less (a1, b1) (a2, b2) = true <->
  less a1 a2 = true \/ (a1 = a2 /\ less b1 b2 = true).
Proof.
  rewrite tuple_less_unfold. split.
  - destruct (less a1 a2) eqn:H12; [now left|]. cbn.
    destruct (less a2 a1) eqn:H21; cbn; [discriminate|].
    intros Hb. right. split; [apply less_total; assumption | exact Hb].
  - intros [H12 | [-> Hb]].
    + rewrite H12. reflexivity.
    + rewrite less_irrefl, Hb. reflexivity.
Qed.

#[global] Instance tuple_less_laws {A B : Type} `{LessLaws A} `{LessLaws B}
  : LessLaws (A * B).
Proof.
  split.
  - intros [a b]. rewrite tuple_less_unfold, !less_irrefl. reflexivity.
  - intros [a1 b1] [a2 b2] [a3 b3]. rewrite !tuple_less_true.
    intros [H12 | [-> Hb12]] [H23 | [-> Hb23]].
    + left. eapply less_trans; eassumption.
    + now left.
    + now left.
    + right. split; [reflexivity | eapply less_trans; eassumption].
  - intros [a1 b1] [a2 b2]. rewrite !tuple_less_unfold.
    destruct (less a1 a2) eqn:H12; cbn; [discriminate|].
    destruct (less a2 a1) eqn:H21; cbn; [discriminate|].
    intros Hb12 Hb21.
    rewrite (less_total a1 a2 H12 H21), (less_total b1 b2 Hb12 Hb21). reflexivity.
Qed.

(** ** Orders given by a sort key *)

Section KeyOrder.
Context {A K : Type} `{LessLaws K} (key : A -> K).

Lemma same_key_equivalence : Equivalence (same_key key).
Proof.
  split; unfold same_key.
  - intros a. reflexivity.
  - intros a b. apply eq_sym.
  - intros a b c. apply eq_trans.
Qed.

Lemma key_order_strict_total : strict_total_order (key_order key) (same_key key).
Proof.
  split; unfold key_order, same_key.
  - exact same_key_equivalence.
  - intros a. apply less_irrefl.
  - intros a b c. apply less_trans.
  - intros a b ->. apply less_irrefl.
  - intros a b Hne.
    destruct (less (key a) (key b)) eqn:Hab; [now left|].
    destruct (less (key b) (key a)) eqn:Hba; [now right|].
    exfalso. apply Hne. apply less_total; assumption.
Qed.

End KeyOrder.


(** ** [std::abs] and the key of [id_order] *)

Lemma std_abs_exact (x : Z) : int64 x -> INT64_MIN < x -> std_abs x = Z.abs x.
Proof.
  intros Hx Hmin. unfold std_abs.
  destruct (Z.ltb_spec x 0) as [Hneg | Hpos].
  - int64_consts. rewrite Z.mod_small by lia. lia.
  - lia.
Qed.

Lemma std_abs_INT64_MIN : std_abs INT64_MIN = INT64_MIN.
Proof. reflexivity. Qed.

Lemma id_sort_key_exact (x : Z) :
  int64 x -> INT64_MIN < x -> id_sort_key x = magnitude_signed_key x.
Proof.
  intros Hx Hmin. unfold id_sort_key, magnitude_signed_key, const_tie2.
  rewrite std_abs_exact by assumption. rewrite Z.gtb_ltb. reflexivity.
Qed.

Lemma id_order_key_order (x y : Z) : id_order x y = key_order id_sort_key x y.
Proof. reflexivity. Qed.

Lemma key_lex_lt_less (k1 k2 : bool * Z) : less k1 k2 = true <-> key_lex_lt k1 k2.
Proof.
  destruct k1 as [p1 m1], k2 as [p2 m2]. rewrite tuple_less_true.
  unfold key_lex_lt, less, bool_less, Z_less. cbn [fst snd].
  rewrite Z.ltb_lt. destruct p1, p2; cbn; intuition congruence.
Qed.

(** Away from [INT64_MIN], [id_order] is the lexicographic comparison of the
    keys [(is_positive, |id|)]. *)
Lemma id_order_magnitude_signed (x y : Z) :
  int64 x -> int64 y -> INT64_MIN < x -> INT64_MIN < y ->
  id_order x y = true <->
  key_lex_lt (magnitude_signed_key x) (magnitude_signed_key y).
Proof.
  intros Hx Hy Hxm Hym. rewrite <- key_lex_lt_less.
  rewrite <- !id_sort_key_exact by assumption. reflexivity.
Qed.

(** Every non-positive identifier precedes every positive one. *)
Lemma id_order_nonpositive_before_positive (x y : Z) :
  x <= 0 -> 0 < y -> id_order x y = true /\ id_order y x = false.
Proof.
  intros Hx Hy. unfold id_order, const_tie2. rewrite !tuple_less_unfold.
  unfold less at 1 2 4 5. unfold bool_less.
  destruct (Z.gtb_spec x 0); [lia|]. destruct (Z.gtb_spec y 0); [|lia].
  split; reflexivity.
Qed.

(** Within a sign class the order is by increasing absolute value. *)
Lemma id_order_by_magnitude (x y : Z) :
  int64 x -> int64 y -> INT64_MIN < x -> INT64_MIN < y ->
  (0 <? x) = (0 <? y) ->
  id_order x y = true <-> Z.abs x < Z.abs y.
Proof.
  intros Hx Hy Hxm Hym Hsign. rewrite id_order_magnitude_signed by assumption.
  unfold key_lex_lt, magnitude_signed_key. cbn [fst snd]. rewrite Hsign.
  split.
  - intros [[H1 H2] | [_ H]]; [congruence | exact H].
  - intros H. right. split; [reflexivity | exact H].
Qed.

(** Two lists sorted by a strict order that hold the same elements are the
    same list. *)
Lemma sorted_permutation_unique {A : Type} (lt : A -> A -> bool) :
  irreflexive lt -> transitive lt ->
  forall l1 l2,
    StronglySorted (precedes lt) l1 -> StronglySorted (precedes lt) l2 ->
    Permutation l1 l2 -> l1 = l2.
Proof.
  intros Hirr Htr. induction l1 as [|a l1 IH]; intros l2 S1 S2 P.
  - apply Permutation_nil in P. now subst.
  - destruct l2 as [|b l2]; [apply Permutation_sym, Permutation_nil in P; discriminate|].
    inversion S1 as [|? ? S1' F1]; subst. inversion S2 as [|? ? S2' F2]; subst.
    assert (Hab : a = b).
    { assert (Ia : In a (b :: l2)) by (eapply Permutation_in; [exact P | now left]).
      assert (Ib : In b (a :: l1))
        by (eapply Permutation_in; [apply Permutation_sym; exact P | now left]).
      destruct Ia as [E | Ia]; [now symmetry|].
      destruct Ib as [E | Ib]; [exact E|].
      rewrite Forall_forall in F1, F2.
      pose proof (Htr a b a (F1 b Ib) (F2 a Ia)) as Haa.
      rewrite Hirr in Haa. discriminate. }
    subst b. f_equal. apply IH; try assumption.
    eapply Permutation_cons_inv; exact P.
Qed.

Lemma id_order_strict_total : strict_total_order id_order (same_key id_sort_key).
Proof. exact (key_order_strict_total id_sort_key). Qed.



(** Sorting [{-2, -1, 0, 1, 2}] with [id_order] gives [[0; -1; -2; 1; 2]]. *)
Lemma id_order_sort_example (l : list Z) :
  Permutation [-2; -1; 0; 1; 2] l -> StronglySorted (precedes id_order) l ->
  l = [0; -1; -2; 1; 2].
Proof.
  intros P S.
  apply (sorted_permutation_unique id_order
           (sto_irreflexive _ _ id_order_strict_total)
           (sto_transitive _ _ id_order_strict_total)); [exact S | |].
  - repeat constructor.
  - apply Permutation_sym. etransitivity; [|exact P].
    apply (Permutation_trans (l' := [-1; 0; -2; 1; 2])).
    + apply perm_swap.
    + apply (Permutation_trans (l' := [-1; -2; 0; 1; 2])).
      * apply perm_skip, perm_swap.
      * apply perm_swap.
Qed.

(** ** Keys of objects *)

(** The sign class and the magnitude together determine the identifier. *)
Lemma sign_magnitude_injective (x y : Z) :
  (x >? 0) = (y >? 0) -> Z.abs x = Z.abs y -> x = y.
Proof.
  destruct (Z.gtb_spec x 0), (Z.gtb_spec y 0); try discriminate; lia.
Qed.

Lemma type_id_key_eq (a b : OSMObject) :
  type_id_key a = type_id_key b <-> type a = type b /\ id a = id b.
Proof.
  unfold type_id_key, positive_id. split.
  - intros E. injection E as Ht Hs Hm.
    split; [exact Ht | apply sign_magnitude_injective; assumption].
  - intros [-> ->]. reflexivity.
Qed.



Lemma same_type_id_version_equivalence : Equivalence same_type_id_version.
Proof.
  unfold same_type_id_version. split.
  - intros a. repeat split.
  - intros a b (H1 & H2 & H3). repeat split; congruence.
  - intros a b c (H1 & H2 & H3) (H4 & H5 & H6). repeat split; congruence.
Qed.

(** A tuple comparison with three leading components splits into the
    comparison of the leading part and that of the rest. *)
Lemma tuple_less_split3 {A B C R : Type} `{LessLaws A} `{LessLaws B} `{LessLaws C}
  `{Less R} (a a' : A) (b b' : B) (c c' : C) (r r' : R) :
  less (a, (b, (c, r))) (a', (b', (c', r'))) = true <->
  less (a, (b, c)) (a', (b', c')) = true \/
  ((a, (b, c)) = (a', (b', c')) /\ less r r' = true).
Proof.
  rewrite !tuple_less_true. split.
  - intros [Ha | [-> [Hb | [-> [Hc | [-> Hr]]]]]]; auto 8.
  - intros [[Ha | [-> [Hb | [-> Hc]]]] | [E Hr]]; auto 8.
    injection E as -> -> ->. auto 8.
Qed.

(** ** The three ordering predicates on objects, unfolded *)

Lemma N_less_true (x y : N) : less x y = true <-> (x < y)%N.
Proof. apply N.ltb_lt. Qed.

Lemma without_timestamp_key_order (a b : OSMObject) :
  object_order_type_id_version_without_timestamp a b
  = key_order type_id_version_key a b.
Proof. reflexivity. Qed.

Lemma with_timestamp_key_order (a b : OSMObject) :
  object_order_type_id_version a b = key_order type_id_version_timestamp_key a b.
Proof. reflexivity. Qed.

Lemma without_timestamp_true (a b : OSMObject) :
  object_order_type_id_version_without_timestamp a b = true <->
  less (type_id_key a) (type_id_key b) = true \/
  (type_id_key a = type_id_key b /\ (version a < version b)%N).
Proof.
  unfold object_order_type_id_version_without_timestamp, const_tie4, type_id_key.
  rewrite tuple_less_split3, N_less_true. reflexivity.
Qed.

Lemma with_timestamp_true (a b : OSMObject) :
  object_order_type_id_version a b = true <->
  less (type_id_key a) (type_id_key b) = true \/
  (type_id_key a = type_id_key b /\
   ((version a < version b)%N \/
    (version a = version b /\ less (timestamp a) (timestamp b) = true))).
Proof.
  unfold object_order_type_id_version, OSMObject_lt, const_tie5, type_id_key.
  rewrite tuple_less_split3, (tuple_less_true (version a) (version b)), N_less_true.
  reflexivity.
Qed.

(** The later version comes first; on equal versions, and only when both
    timestamps are valid, the later timestamp comes first. *)
Lemma reverse_version_true (a b : OSMObject) :
  object_order_type_id_reverse_version a b = true <->
  less (type_id_key a) (type_id_key b) = true \/
  (type_id_key a = type_id_key b /\
   ((version b < version a)%N \/
    (version a = version b /\
     valid (timestamp a) = true /\ valid (timestamp b) = true /\
     less (timestamp b) (timestamp a) = true))).
Proof.
  unfold object_order_type_id_reverse_version, const_tie5, type_id_key.
  rewrite tuple_less_split3, (tuple_less_true (version b) (version a)), N_less_true.
  destruct (valid (timestamp a)), (valid (timestamp b)); cbn [andb];
    rewrite ?less_irrefl; intuition (congruence || auto).
Qed.

Lemma reverse_version_irreflexive : irreflexive object_order_type_id_reverse_version.
Proof.
  intros a. destruct (object_order_type_id_reverse_version a a) eqn:E; [|reflexivity].
  apply reverse_version_true in E. rewrite !less_irrefl in E.
  destruct E as [E | (_ & [E | (_ & _ & _ & E)])]; try discriminate. lia.
Qed.

Lemma reverse_version_transitive : transitive object_order_type_id_reverse_version.
Proof.
  intros a b c. rewrite !reverse_version_true.
  intros [Kab | (Eab & Hab)] [Kbc | (Ebc & Hbc)].
  - left. eapply less_trans; eassumption.
  - left. rewrite <- Ebc. exact Kab.
  - left. rewrite Eab. exact Kbc.
  - right. split; [congruence|].
    destruct Hab as [Vab | (Vab & Va & Vb & Tab)];
      destruct Hbc as [Vbc | (Vbc & Vb' & Vc & Tbc)].
    + left. lia.
    + left. lia.
    + left. lia.
    + right. repeat split; try assumption; try congruence.
      eapply less_trans; eassumption.
Qed.

Lemma reverse_version_asymmetric (a b : OSMObject) :
  object_order_type_id_reverse_version a b = true ->
  object_order_type_id_reverse_version b a = false.
Proof.
  intros Hab. destruct (object_order_type_id_reverse_version b a) eqn:Hba; [|reflexivity].
  pose proof (reverse_version_transitive a b a Hab Hba) as Haa.
  rewrite reverse_version_irreflexive in Haa. discriminate.
Qed.

(** * The claims *)

(** C2. Of two objects with the same type and the same id, the one with the
    higher version comes strictly first in
    [object_order_type_id_reverse_version]: it precedes the other, and the
    other does not precede it. *)
Theorem reverse_version_higher_version_first (a b : OSMObject) :
  type a = type b -> id a = id b -> (version a < version b)%N ->
  object_order_type_id_reverse_version b a = true /\
  object_order_type_id_reverse_version a b = false.
Proof.
  intros Ht Hi Hv.
  assert (Hba : object_order_type_id_reverse_version b a = true).
  { apply reverse_version_true. right. split.
    - apply type_id_key_eq. split; congruence.
    - left. exact Hv. }
  split; [exact Hba | apply reverse_version_asymmetric, Hba].
Qed.

Lemma reverse_version_higher_version_first_witness :
  object_order_type_id_reverse_version node_1_v2 node_1_v1 = true /\
  object_order_type_id_reverse_version node_1_v1 node_1_v2 = false.
Proof.
  apply (reverse_version_higher_version_first node_1_v1 node_1_v2);
    [reflexivity | reflexivity | cbn; lia].
Defined.

(** C3. Of two objects with the same type, id and version: when both
    timestamps are valid and one is earlier than the other, the object with
    the later timestamp comes strictly first in
    [object_order_type_id_reverse_version]; when either timestamp is
    invalid, neither object precedes the other, whatever the other
    timestamp is. *)
Theorem reverse_version_timestamp_tie_break (a b : OSMObject) :
  type a = type b -> id a = id b -> version a = version b ->
  (valid (timestamp a) = true -> valid (timestamp b) = true ->
   less (timestamp a) (timestamp b) = true ->
   object_order_type_id_reverse_version b a = true /\
   object_order_type_id_reverse_version a b = false) /\
  (valid (timestamp a) = false \/ valid (timestamp b) = false ->
   object_order_type_id_reverse_version a b = false /\
   object_order_type_id_reverse_version b a = false).
Proof.
  intros Ht Hi Hv.
  assert (Hk : type_id_key a = type_id_key b) by (apply type_id_key_eq; now split).
  split.
  - intros Va Vb Hts.
    assert (Hba : object_order_type_id_reverse_version b a = true).
    { apply reverse_version_true. right. split; [now symmetry|].
      right. repeat split; [now symmetry | exact Vb | exact Va | exact Hts]. }
    split; [exact Hba | apply reverse_version_asymmetric, Hba].
  - intros Hinv.
    assert (forall x y, type_id_key x = type_id_key y -> version x = version y ->
              valid (timestamp x) = false \/ valid (timestamp y) = false ->
              object_order_type_id_reverse_version x y = false) as Hno.
    { intros x y Ek Ev Vxy.
      destruct (object_order_type_id_reverse_version x y) eqn:E; [|reflexivity].
      apply reverse_version_true in E. rewrite Ek, less_irrefl in E.
      destruct E as [E | (_ & [E | (_ & Vx & Vy & _)])].
      - discriminate.
      - lia.
      - destruct Vxy; congruence. }
    split; apply Hno; try congruence. tauto.
Qed.

Lemma reverse_version_timestamp_tie_break_witness :
  (object_order_type_id_reverse_version node_1_v1_later node_1_v1 = true /\
   object_order_type_id_reverse_version node_1_v1 node_1_v1_later = false) /\
  (object_order_type_id_reverse_version node_1_v1_unset node_1_v1 = false /\
   object_order_type_id_reverse_version node_1_v1 node_1_v1_unset = false).
Proof.
  split.
  - apply (proj1 (reverse_version_timestamp_tie_break node_1_v1 node_1_v1_later
                    eq_refl eq_refl eq_refl)); reflexivity.
  - apply (proj2 (reverse_version_timestamp_tie_break node_1_v1_unset node_1_v1
                    eq_refl eq_refl eq_refl)).
    left. reflexivity.
Defined.

(** C5. [object_order_type_id_version] and
    [object_order_type_id_version_without_timestamp] give the same result on
    two objects whose timestamps are identical, or both invalid; where the
    two results differ, the timestamps differ and type, id and version are
    all equal. *)
Theorem order_with_and_without_timestamp (a b : OSMObject) :
  (timestamp a = timestamp b ->
   object_order_type_id_version a b
   = object_order_type_id_version_without_timestamp a b) /\
  (valid (timestamp a) = false -> valid (timestamp b) = false ->
   object_order_type_id_version a b
   = object_order_type_id_version_without_timestamp a b) /\
  (object_order_type_id_version a b
   <> object_order_type_id_version_without_timestamp a b ->
   timestamp a <> timestamp b /\
   type a = type b /\ id a = id b /\ version a = version b).
Proof.
  assert (Hsame : timestamp a = timestamp b ->
                  object_order_type_id_version a b
                  = object_order_type_id_version_without_timestamp a b).
  { intros Hts. apply eq_true_iff_eq.
    rewrite with_timestamp_true, without_timestamp_true, Hts, less_irrefl.
    intuition discriminate. }
  split; [exact Hsame | split].
  - intros Va Vb. apply Hsame.
    destruct (timestamp a), (timestamp b); try discriminate. reflexivity.
  - intros Hne. split; [intros Hts; apply Hne, Hsame, Hts|].
    destruct (object_order_type_id_version_without_timestamp a b) eqn:Hwo.
    + exfalso. apply Hne. apply with_timestamp_true.
      apply without_timestamp_true in Hwo. tauto.
    + apply not_false_is_true in Hne. apply with_timestamp_true in Hne.
      assert (Hnot : ~ (less (type_id_key a) (type_id_key b) = true \/
                        type_id_key a = type_id_key b /\ (version a < version b)%N)).
      { rewrite <- without_timestamp_true, Hwo. discriminate. }
      destruct Hne as [Hk | (Hk & [Hv | (Hv & _)])]; try tauto.
      apply type_id_key_eq in Hk. tauto.
Qed.

Lemma order_with_and_without_timestamp_witness :
  object_order_type_id_version node_1_v1 node_1_v1_later = true /\
  object_order_type_id_version_without_timestamp node_1_v1 node_1_v1_later = false /\
  timestamp node_1_v1 <> timestamp node_1_v1_later /\
  type node_1_v1 = type node_1_v1_later /\
  id node_1_v1 = id node_1_v1_later /\
  version node_1_v1 = version node_1_v1_later.
Proof.
  split; [reflexivity | split; [reflexivity|]].
  apply (proj2 (proj2 (order_with_and_without_timestamp node_1_v1 node_1_v1_later))).
  discriminate.
Defined.

(** C6. [object_equal_type_id_version] holds exactly when type, id and
    version are all equal; two objects that differ only in their timestamps
    are equal under it; it is reflexive and symmetric. *)
Theorem object_equal_type_id_version_spec (a b : OSMObject) :
  (object_equal_type_id_version a b = true <->
   type a = type b /\ id a = id b /\ version a = version b) /\
  (forall t : Timestamp, object_equal_type_id_version a (set_timestamp a t) = true) /\
  object_equal_type_id_version a a = true /\
  object_equal_type_id_version a b = object_equal_type_id_version b a.
Proof.
  unfold object_equal_type_id_version, OSMObject_eq.
  repeat split.
  - rewrite !andb_true_iff, !N.eqb_eq, Z.eqb_eq in H. tauto.
  - rewrite !andb_true_iff, !N.eqb_eq, Z.eqb_eq in H. tauto.
  - rewrite !andb_true_iff, !N.eqb_eq, Z.eqb_eq in H. tauto.
  - intros (Ht & Hi & Hv). rewrite Ht, Hi, Hv, !N.eqb_refl, Z.eqb_refl. reflexivity.
  - intros t. cbn. rewrite !N.eqb_refl, Z.eqb_refl. reflexivity.
  - rewrite !N.eqb_refl, Z.eqb_refl. reflexivity.
  - rewrite (N.eqb_sym (type a)), (Z.eqb_sym (id a)), (N.eqb_sym (version a)).
    reflexivity.
Qed.

(** C7. On two objects with the same type and the same id but different
    versions, [object_equal_type_id] is true and
    [object_equal_type_id_version] is false; the result of
    [object_equal_type_id] does not change when the versions of its
    arguments are changed. *)
Theorem object_equal_type_id_ignores_version (a b : OSMObject) :
  (type a = type b -> id a = id b -> version a <> version b ->
   object_equal_type_id a b = true /\ object_equal_type_id_version a b = false) /\
  (forall va vb : object_version_type,
     object_equal_type_id (set_version a va) (set_version b vb)
     = object_equal_type_id a b).
Proof.
  split.
  - intros Ht Hi Hv. unfold object_equal_type_id, object_equal_type_id_version, OSMObject_eq.
    rewrite Ht, Hi, N.eqb_refl, Z.eqb_refl. split; [reflexivity|].
    apply N.eqb_neq in Hv. rewrite Hv. reflexivity.
  - intros va vb. reflexivity.
Qed.

Lemma object_equal_type_id_ignores_version_witness :
  object_equal_type_id node_1_v1 node_1_v2 = true /\
  object_equal_type_id_version node_1_v1 node_1_v2 = false.
Proof.
  apply (proj1 (object_equal_type_id_ignores_version node_1_v1 node_1_v2));
    [reflexivity | reflexivity | discriminate].
Defined.

(** C8. The result of [object_order_type_id_version_without_timestamp] does
    not change when the timestamp of either argument is replaced by any
    other timestamp, valid or not. *)
Theorem without_timestamp_ignores_timestamp (a b : OSMObject) (ta tb : Timestamp) :
  object_order_type_id_version_without_timestamp (set_timestamp a ta) (set_timestamp b tb)
  = object_order_type_id_version_without_timestamp a b.
Proof.
  rewrite !without_timestamp_key_order. unfold key_order.
  replace (type_id_version_key (set_timestamp a ta)) with (type_id_version_key a)
    by reflexivity.
  replace (type_id_version_key (set_timestamp b tb)) with (type_id_version_key b)
    by reflexivity.
  reflexivity.
Qed.

(** ** By-pointer overloads *)

Lemma to_bool_deref (p : pointer) :
  to_bool p = true -> exists o, p = address_of o /\ deref p = Some o.
Proof.
  destruct p as [|o]; [discriminate|]. intros _. exists o. split; reflexivity.
Qed.

(** C9, as stated, fails: [id_order] has a single [operator()], which takes
    two identifiers by value; it has neither a by-reference nor a
    by-pointer form on objects. *)
Lemma id_order_has_no_object_overload : ~ every_comparator_has_both_forms.
Proof.
  intros H. destruct (H c_id_order node_1_v1 node_1_v2) as (r & Href & _).
  discriminate Href.
Qed.

(** C9, amended. For each of the five comparators on objects and every pair
    of non-null pointers, the by-pointer overload passes its assertion and
    returns what the by-reference overload returns on the pointed-to
    objects; [id_order] has one overload, on identifiers passed by value,
    and none on objects or pointers. *)
Theorem by_pointer_agrees_with_by_reference :
  (forall (c : comparator) (p q : pointer),
     compares_objects c = true -> to_bool p = true -> to_bool q = true ->
     exists (a b : OSMObject) (r : bool),
       deref p = Some a /\ deref q = Some b /\
       call c (by_reference a b) = returns r /\
       call c (by_pointer p q) = returns r) /\
  (forall x y : object_id_type,
     call c_id_order (by_value x y) = returns (id_order x y)) /\
  (forall a b : OSMObject,
     call c_id_order (by_reference a b) = no_matching_overload) /\
  (forall p q : pointer,
     call c_id_order (by_pointer p q) = no_matching_overload).
Proof.
  split; [|repeat split].
  intros c p q Hc Hp Hq.
  destruct (to_bool_deref p Hp) as (a & -> & Da).
  destruct (to_bool_deref q Hq) as (b & -> & Db).
  exists a, b.
  destruct c; try discriminate Hc; eexists; repeat split; reflexivity.
Qed.

Lemma by_pointer_agrees_with_by_reference_witness :
  exists (a b : OSMObject) (r : bool),
    deref (address_of node_1_v2) = Some a /\ deref (address_of node_1_v1) = Some b /\
    call c_object_order_type_id_reverse_version (by_reference a b) = returns r /\
    call c_object_order_type_id_reverse_version
      (by_pointer (address_of node_1_v2) (address_of node_1_v1)) = returns r.
Proof.
  apply (proj1 by_pointer_agrees_with_by_reference
           c_object_order_type_id_reverse_version
           (address_of node_1_v2) (address_of node_1_v1)); reflexivity.
Defined.

(** A null argument stops a by-pointer call at its assertion. *)
Lemma by_pointer_null_asserts (c : comparator) (p q : pointer) :
  compares_objects c = true -> to_bool p && to_bool q = false ->
  call c (by_pointer p q) = assertion_failure.
Proof.
  intros Hc Hn. destruct c; try discriminate Hc;
    destruct p, q; try discriminate Hn; reflexivity.
Qed.

(** ** Strict total orders *)






(** C10. [id_order] compares the keys [(id > 0, std::abs(id))].  On an
    [int64_t] identifier above [INT64_MIN], [std::abs] returns the absolute
    value, which is again an [int64_t], the key is the pair
    [(is_positive, |id|)], and against every other such identifier
    [id_order] decides as the lexicographic comparison of these pairs does.
    At [INT64_MIN] the absolute value is not an [int64_t]; with
    two's-complement wrap-around [std::abs] returns [INT64_MIN], the key is
    not that pair, and [id_order] no longer decides as the comparison of
    the pairs does. *)
Theorem std_abs_exact_above_INT64_MIN (x : Z) :
  int64 x ->
  (forall y, id_order x y = less (id_sort_key x) (id_sort_key y) /\
             id_order y x = less (id_sort_key y) (id_sort_key x)) /\
  (INT64_MIN < x ->
   std_abs x = Z.abs x /\ int64 (Z.abs x) /\
   id_sort_key x = magnitude_signed_key x /\
   forall y, int64 y -> INT64_MIN < y ->
     (id_order x y = true <->
      key_lex_lt (magnitude_signed_key x) (magnitude_signed_key y)) /\
     (id_order y x = true <->
      key_lex_lt (magnitude_signed_key y) (magnitude_signed_key x))) /\
  (x = INT64_MIN ->
   std_abs x = INT64_MIN /\ ~ int64 (Z.abs x) /\
   id_sort_key x <> magnitude_signed_key x /\
   ~ (forall y, int64 y ->
        (id_order x y = true <->
         key_lex_lt (magnitude_signed_key x) (magnitude_signed_key y)))).
Proof.
  intros Hx. split; [|split].
  - intros y. split; reflexivity.
  - intros Hmin. split; [apply std_abs_exact; assumption|].
    split; [int64_consts; lia|].
    split; [apply id_sort_key_exact; assumption|].
    intros y Hy Hym. split; apply id_order_magnitude_signed; assumption.
  - intros ->. split; [reflexivity|]. split; [|split].
    + int64_consts. cbn. lia.
    + discriminate.
    + intros H.
      assert (H0 : int64 0) by (unfold int64, INT64_MIN, INT64_MAX; lia).
      destruct (H 0 H0) as [Hlt _]. specialize (Hlt eq_refl).
      unfold key_lex_lt in Hlt. cbn in Hlt.
      destruct Hlt as [[_ C] | [_ C]]; [discriminate | lia].
Qed.

Lemma std_abs_exact_above_INT64_MIN_witness :
  (std_abs (-5) = Z.abs (-5) /\ int64 (Z.abs (-5)) /\
   id_sort_key (-5) = magnitude_signed_key (-5) /\
   forall y, int64 y -> INT64_MIN < y ->
     (id_order (-5) y = true <->
      key_lex_lt (magnitude_signed_key (-5)) (magnitude_signed_key y)) /\
     (id_order y (-5) = true <->
      key_lex_lt (magnitude_signed_key y) (magnitude_signed_key (-5)))) /\
  (std_abs INT64_MIN = INT64_MIN /\ ~ int64 (Z.abs INT64_MIN) /\
   id_sort_key INT64_MIN <> magnitude_signed_key INT64_MIN /\
   ~ (forall y, int64 y ->
        (id_order INT64_MIN y = true <->
         key_lex_lt (magnitude_signed_key INT64_MIN) (magnitude_signed_key y)))).
Proof.
  split.
  - apply (proj1 (proj2 (std_abs_exact_above_INT64_MIN (-5)
                           ltac:(unfold int64, INT64_MIN, INT64_MAX; lia)))).
    unfold INT64_MIN; lia.
  - apply (proj2 (proj2 (std_abs_exact_above_INT64_MIN INT64_MIN
                           ltac:(unfold int64, INT64_MIN, INT64_MAX; lia)))).
    reflexivity.
Defined.

(** The comparators on objects take the magnitude from [positive_id()]
    and not from [std::abs]: they place an object with id [INT64_MIN] after
    the object with id [0] of the same type, the opposite of what
    [id_order] does with the two identifiers. *)
Lemma object_order_INT64_MIN_after_zero (t : item_type) (v : object_version_type)
  (s : Timestamp) :
  object_order_type_id_version_without_timestamp
    (mkOSMObject t 0 v s) (mkOSMObject t INT64_MIN v s) = true /\
  object_order_type_id_version_without_timestamp
    (mkOSMObject t INT64_MIN v s) (mkOSMObject t 0 v s) = false.
Proof.
  assert (H : object_order_type_id_version_without_timestamp
                (mkOSMObject t 0 v s) (mkOSMObject t INT64_MIN v s) = true).
  { apply without_timestamp_true. left. unfold type_id_key. cbn [type id].
    apply tuple_less_true. right. split; reflexivity. }
  split; [exact H|].
  rewrite without_timestamp_key_order in *. unfold key_order in *.
  apply less_asym. exact H.
Qed.

(** C1, at [INT64_MIN]. [id_order] places [INT64_MIN] before [0], and [0]
    not before [INT64_MIN], while the key [(is_positive, |id|)] of
    [INT64_MIN] is not lexicographically less than that of [0], and that of
    [0] is less than that of [INT64_MIN]. *)
Theorem id_order_INT64_MIN_before_zero :
  id_order INT64_MIN 0 = true /\
  id_order 0 INT64_MIN = false /\
  ~ key_lex_lt (magnitude_signed_key INT64_MIN) (magnitude_signed_key 0) /\
  key_lex_lt (magnitude_signed_key 0) (magnitude_signed_key INT64_MIN).
Proof.
  split; [reflexivity | split; [reflexivity | split]].
  - unfold key_lex_lt. cbn. intros [[_ C] | [_ C]]; [discriminate | lia].
  - unfold key_lex_lt. cbn. right. split; [reflexivity | lia].
Qed.

(** * Further properties of the comparators *)

(** ** [id_order] *)

(** On identifiers above [INT64_MIN], [id_order] is the lexicographic
    comparison of the keys [(is_positive, |id|)], [false] before [true]. *)
Theorem id_order_is_magnitude_signed_order (x y : object_id_type) :
  int64 x -> int64 y -> INT64_MIN < x -> INT64_MIN < y ->
  (id_order x y = true <->
   key_lex_lt (magnitude_signed_key x) (magnitude_signed_key y)) /\
  (id_order x y = false <->
   ~ key_lex_lt (magnitude_signed_key x) (magnitude_signed_key y)).
Proof.
  intros Hx Hy Hxm Hym.
  assert (H : id_order x y = true <->
              key_lex_lt (magnitude_signed_key x) (magnitude_signed_key y)).
  { rewrite <- key_lex_lt_less, <- !id_sort_key_exact by assumption. reflexivity. }
  split; [exact H|].
  rewrite <- H. destruct (id_order x y); split; congruence.
Qed.

Lemma id_order_is_magnitude_signed_order_witness :
  (id_order (-7) 4 = true <->
   key_lex_lt (magnitude_signed_key (-7)) (magnitude_signed_key 4)) /\
  (id_order (-7) 4 = false <->
   ~ key_lex_lt (magnitude_signed_key (-7)) (magnitude_signed_key 4)).
Proof.
  apply (id_order_is_magnitude_signed_order (-7) 4);
    unfold int64, INT64_MIN, INT64_MAX; lia.
Defined.

Lemma id_order_nonpositive_before_positive_witness :
  id_order (-9) 2 = true /\ id_order 2 (-9) = false.
Proof. apply (id_order_nonpositive_before_positive (-9) 2); lia. Defined.

(** The identifier [0] comes before every other identifier above
    [INT64_MIN], and none of them comes before it. *)
Theorem id_order_zero_first (y : object_id_type) :
  int64 y -> INT64_MIN < y -> y <> 0 ->
  id_order 0 y = true /\ id_order y 0 = false.
Proof.
  intros Hy Hym Hne.
  assert (H0 : int64 0) by (unfold int64, INT64_MIN, INT64_MAX; lia).
  assert (H0m : INT64_MIN < 0) by (unfold INT64_MIN; lia).
  assert (H : id_order 0 y = true).
  { apply id_order_magnitude_signed; try assumption.
    unfold key_lex_lt, magnitude_signed_key. cbn [fst snd].
    destruct (Z.ltb_spec 0 y); [left; split; reflexivity | right].
    split; [reflexivity | cbn; lia]. }
  split; [exact H|].
  rewrite id_order_key_order in *. unfold key_order in *.
  apply less_asym. exact H.
Qed.

Lemma id_order_zero_first_witness :
  id_order 0 (-1) = true /\ id_order (-1) 0 = false.
Proof.
  apply (id_order_zero_first (-1)); unfold int64, INT64_MIN, INT64_MAX; lia.
Defined.

(** ** [object_equal_type_id] *)

Lemma object_equal_type_id_true (a b : OSMObject) :
  object_equal_type_id a b = true <-> type_id_key a = type_id_key b.
Proof.
  unfold object_equal_type_id.
  rewrite andb_true_iff, N.eqb_eq, Z.eqb_eq. symmetry. apply type_id_key_eq.
Qed.

(** [object_equal_type_id] is an equivalence relation on objects. *)
Theorem object_equal_type_id_equivalence :
  Equivalence (fun a b : OSMObject => object_equal_type_id a b = true).
Proof.
  split.
  - intros a. apply object_equal_type_id_true. reflexivity.
  - intros a b. rewrite !object_equal_type_id_true. apply eq_sym.
  - intros a b c. rewrite !object_equal_type_id_true. apply eq_trans.
Qed.

(** ** The orderings and [object_equal_type_id] *)

Lemma without_timestamp_false_key (a b : OSMObject) :
  object_order_type_id_version_without_timestamp a b = false ->
  less (type_id_key a) (type_id_key b) = false.
Proof.
  intros H. destruct (less (type_id_key a) (type_id_key b)) eqn:E; [|reflexivity].
  rewrite <- H. symmetry. apply without_timestamp_true. now left.
Qed.

Lemma reverse_version_false_key (a b : OSMObject) :
  object_order_type_id_reverse_version a b = false ->
  less (type_id_key a) (type_id_key b) = false.
Proof.
  intros H. destruct (less (type_id_key a) (type_id_key b)) eqn:E; [|reflexivity].
  rewrite <- H. symmetry. apply reverse_version_true. now left.
Qed.

Lemma type_id_key_between (a b c : OSMObject) :
  less (type_id_key b) (type_id_key a) = false ->
  less (type_id_key c) (type_id_key b) = false ->
  type_id_key a = type_id_key c ->
  type_id_key a = type_id_key b /\ type_id_key b = type_id_key c.
Proof.
  intros Hba Hcb Eac. rewrite <- Eac in Hcb.
  assert (E : type_id_key a = type_id_key b) by (apply less_total; assumption).
  split; congruence.
Qed.

(** The versions of one object stand together in either ordering: an
    object that neither ordering places before [a] or after [c], where [a]
    and [c] have the same type and id, has that type and id too. *)
Theorem equal_type_id_objects_contiguous (a b c : OSMObject) :
  object_equal_type_id a c = true ->
  (object_order_type_id_version_without_timestamp b a = false ->
   object_order_type_id_version_without_timestamp c b = false ->
   object_equal_type_id a b = true /\ object_equal_type_id b c = true) /\
  (object_order_type_id_reverse_version b a = false ->
   object_order_type_id_reverse_version c b = false ->
   object_equal_type_id a b = true /\ object_equal_type_id b c = true).
Proof.
  rewrite !object_equal_type_id_true. intros Eac. split; intros Hba Hcb.
  - apply type_id_key_between; auto using without_timestamp_false_key.
  - apply type_id_key_between; auto using reverse_version_false_key.
Qed.

Lemma equal_type_id_objects_contiguous_witness :
  (object_equal_type_id node_1_v2 node_1_v1_later = true /\
   object_equal_type_id node_1_v1_later node_1_v1_earlier = true).
Proof.
  apply (proj2 (equal_type_id_objects_contiguous
                  node_1_v2 node_1_v1_later node_1_v1_earlier eq_refl));
    reflexivity.
Defined.

(** Across objects that differ in type or id the reverse-version ordering
    is the ordering by type, id and version; between two versions of one
    object it is that ordering reversed. *)
Theorem reverse_version_against_version_order (a b : OSMObject) :
  (object_equal_type_id a b = false ->
   object_order_type_id_reverse_version a b
   = object_order_type_id_version_without_timestamp a b) /\
  (object_equal_type_id a b = true -> version a <> version b ->
   object_order_type_id_reverse_version a b
   = object_order_type_id_version_without_timestamp b a).
Proof.
  split.
  - intros Hne. apply eq_true_iff_eq.
    rewrite reverse_version_true, without_timestamp_true.
    assert (Hk : type_id_key a <> type_id_key b).
    { intros E. apply object_equal_type_id_true in E. congruence. }
    tauto.
  - intros He Hv. apply object_equal_type_id_true in He. apply eq_true_iff_eq.
    rewrite reverse_version_true, without_timestamp_true, He, less_irrefl.
    intuition (discriminate || congruence).
Qed.

Lemma reverse_version_against_version_order_witness :
  object_order_type_id_reverse_version node_1_v2 node_2_v1
  = object_order_type_id_version_without_timestamp node_1_v2 node_2_v1 /\
  object_order_type_id_reverse_version node_1_v2 node_1_v1
  = object_order_type_id_version_without_timestamp node_1_v1 node_1_v2.
Proof.
  split.
  - apply (proj1 (reverse_version_against_version_order node_1_v2 node_2_v1)).
    reflexivity.
  - apply (proj2 (reverse_version_against_version_order node_1_v2 node_1_v1));
      [reflexivity | discriminate].
Defined.

(** Two versions of one object are ordered by their version numbers alone
    in [object_order_type_id_version_without_timestamp]. *)
Theorem without_timestamp_within_object (a b : OSMObject) :
  object_equal_type_id a b = true ->
  object_order_type_id_version_without_timestamp a b = (version a <? version b)%N.
Proof.
  intros He. apply object_equal_type_id_true in He. apply eq_true_iff_eq.
  rewrite without_timestamp_true, He, less_irrefl, N.ltb_lt.
  intuition discriminate.
Qed.

Lemma without_timestamp_within_object_witness :
  object_order_type_id_version_without_timestamp node_1_v1 node_1_v2
  = (version node_1_v1 <? version node_1_v2)%N.
Proof. apply (without_timestamp_within_object node_1_v1 node_1_v2). reflexivity. Defined.

(** Objects that differ in type, id or version are ordered by
    [object_order_type_id_reverse_version] without regard to their
    timestamps. *)
Theorem reverse_version_timestamp_only_breaks_ties (a b : OSMObject)
  (ta tb : Timestamp) :
  ~ same_type_id_version a b ->
  object_order_type_id_reverse_version (set_timestamp a ta) (set_timestamp b tb)
  = object_order_type_id_reverse_version a b.
Proof.
  intros Hne. apply eq_true_iff_eq. rewrite !reverse_version_true.
  change (type_id_key (set_timestamp a ta)) with (type_id_key a).
  change (type_id_key (set_timestamp b tb)) with (type_id_key b).
  change (version (set_timestamp a ta)) with (version a).
  change (version (set_timestamp b tb)) with (version b).
  assert (Hk : type_id_key a = type_id_key b -> version a = version b -> False).
  { intros Ek Ev. apply Hne. apply type_id_key_eq in Ek.
    unfold same_type_id_version. tauto. }
  tauto.
Qed.

Lemma reverse_version_timestamp_only_breaks_ties_witness :
  object_order_type_id_reverse_version
    (set_timestamp node_1_v1 Timestamp_default) (set_timestamp node_1_v2 (Timestamp_at 7))
  = object_order_type_id_reverse_version node_1_v1 node_1_v2.
Proof.
  apply (reverse_version_timestamp_only_breaks_ties node_1_v1 node_1_v2).
  unfold same_type_id_version. intros (_ & _ & H). discriminate H.
Defined.

(** Between objects of one type with different ids above [INT64_MIN], both
    orderings on objects decide as [id_order] does on the ids. *)
Theorem object_orders_follow_id_order (a b : OSMObject) :
  type a = type b -> id a <> id b ->
  int64 (id a) -> int64 (id b) -> INT64_MIN < id a -> INT64_MIN < id b ->
  object_order_type_id_version_without_timestamp a b = id_order (id a) (id b) /\
  object_order_type_id_reverse_version a b = id_order (id a) (id b).
Proof.
  intros Ht Hi Ha Hb Hma Hmb.
  assert (Hk : type_id_key a <> type_id_key b).
  { intros E. apply type_id_key_eq in E. tauto. }
  assert (Hid : less (type_id_key a) (type_id_key b) = true <->
                id_order (id a) (id b) = true).
  { rewrite id_order_key_order. unfold key_order.
    rewrite !id_sort_key_exact by assumption.
    unfold type_id_key, magnitude_signed_key, positive_id.
    rewrite tuple_less_true, Ht, less_irrefl, <- !Z.gtb_ltb.
    intuition discriminate. }
  split; apply eq_true_iff_eq.
  - rewrite without_timestamp_true. tauto.
  - rewrite reverse_version_true. tauto.
Qed.

Lemma object_orders_follow_id_order_witness :
  object_order_type_id_version_without_timestamp node_m3_v1 node_2_v1
  = id_order (id node_m3_v1) (id node_2_v1) /\
  object_order_type_id_reverse_version node_m3_v1 node_2_v1
  = id_order (id node_m3_v1) (id node_2_v1).
Proof.
  apply (object_orders_follow_id_order node_m3_v1 node_2_v1);
    try reflexivity; try discriminate;
    cbn; unfold int64, INT64_MIN, INT64_MAX; lia.
Defined.

(** ** Sorted lists of objects *)

Lemma StronglySorted_after {A : Type} (R : A -> A -> Prop) (l1 l2 : list A) (a : A) :
  StronglySorted R (l1 ++ a :: l2) -> Forall (R a) l2.
Proof.
  induction l1 as [|x l1 IH]; cbn; intros S; inversion S; subst; auto.
Qed.

(** In a list sorted with [object_order_type_id_reverse_version], no
    version of an object stands before a higher version of that object; in
    a list sorted with [object_order_type_id_version_without_timestamp],
    none stands before a lower one. *)
Theorem sorted_versions_of_an_object (l1 l2 : list OSMObject) (a b : OSMObject) :
  In b l2 -> object_equal_type_id a b = true ->
  (sorted_by object_order_type_id_reverse_version (l1 ++ a :: l2) ->
   (version b <= version a)%N) /\
  (sorted_by object_order_type_id_version_without_timestamp (l1 ++ a :: l2) ->
   (version a <= version b)%N).
Proof.
  intros Hin He. apply object_equal_type_id_true in He.
  split; intros S; apply StronglySorted_after in S;
    rewrite Forall_forall in S; specialize (S b Hin); cbn beta in S.
  - apply N.le_ngt. intros Hlt.
    assert (T : object_order_type_id_reverse_version b a = true).
    { apply reverse_version_true. right. split; [now symmetry | now left]. }
    congruence.
  - apply N.le_ngt. intros Hlt.
    assert (T : object_order_type_id_version_without_timestamp b a = true).
    { apply without_timestamp_true. right. split; [now symmetry | exact Hlt]. }
    congruence.
Qed.

Lemma sorted_versions_of_an_object_witness :
  (version node_1_v1 <= version node_1_v2)%N.
Proof.
  apply (proj1 (sorted_versions_of_an_object [] [node_1_v1; node_2_v1]
                  node_1_v2 node_1_v1 (or_introl eq_refl) eq_refl)).
  unfold sorted_by. cbn [app].
  repeat (constructor; try reflexivity).
Defined.
